(** * Architecture parameters of the runtime: [src/runtime/arch_power64le.h]

    The header declares one anonymous C [enum] with seven enumerators.  An
    enumerator is an integer constant expression of type [int]: it has no
    storage, no address, and cannot appear on the left of an assignment.  The
    embedding therefore gives each enumerator as a closed [Z], under the name
    the header gives it, and builds from them the record that the rest of the
    runtime reads. *)

From Stdlib Require Import ZArith List Ascii Bool Lia.
Import ListNotations.

Local Open Scope Z_scope.

(** ** The enumerators, as declared *)

Module arch_power64le.

(** ['9'] is a character constant: an [int] whose value is the code of the
    character. *)
Definition thechar : Z := Z.of_N (N_of_ascii "9"%char).
Definition BigEndian : Z := 0.
Definition CacheLineSize : Z := 64.
Definition RuntimeGogoBytes : Z := 64.
Definition PhysPageSize : Z := 65536.
Definition PCQuantum : Z := 4.
Definition Int64Align : Z := 8.

(** The names the [enum] introduces, and the constant each one denotes. *)
Inductive enumerator : Set :=
| e_thechar | e_BigEndian | e_CacheLineSize | e_RuntimeGogoBytes
| e_PhysPageSize | e_PCQuantum | e_Int64Align.

Definition enum_value (e : enumerator) : Z :=
  match e with
  | e_thechar => thechar
  | e_BigEndian => BigEndian
  | e_CacheLineSize => CacheLineSize
  | e_RuntimeGogoBytes => RuntimeGogoBytes
  | e_PhysPageSize => PhysPageSize
  | e_PCQuantum => PCQuantum
  | e_Int64Align => Int64Align
  end.

Definition enumerators : list enumerator :=
  [e_thechar; e_BigEndian; e_CacheLineSize; e_RuntimeGogoBytes;
   e_PhysPageSize; e_PCQuantum; e_Int64Align].

End arch_power64le.

(** Range of a C [int] on the targets of this runtime (32 bits, two's
    complement). *)
Definition INT_MIN : Z := - 2 ^ 31.
Definition INT_MAX : Z := 2 ^ 31 - 1.
Definition fits_int (z : Z) : bool := (INT_MIN <=? z) && (z <=? INT_MAX).

(** ** The record read by the consumers *)

Record ArchitectureParameters : Set := mkArchitectureParameters {
  architectureTag : ascii;
  isBigEndian : bool;
  cacheLineSizeBytes : Z;
  stackSwitchBufferBytes : Z;
  physicalPageSizeBytes : Z;
  programCounterQuantum : Z;
  int64AlignmentBytes : Z
}.

(** How seven enumerator values become a record: [thechar] is read back as
    the character it encodes, [BigEndian] by C truth (non-zero is true), the
    five sizes as they are. *)
Definition of_enum
  (thechar BigEndian CacheLineSize RuntimeGogoBytes
   PhysPageSize PCQuantum Int64Align : Z) : ArchitectureParameters :=
  {| architectureTag := ascii_of_N (Z.to_N thechar);
     isBigEndian := negb (BigEndian =? 0);
     cacheLineSizeBytes := CacheLineSize;
     stackSwitchBufferBytes := RuntimeGogoBytes;
     physicalPageSizeBytes := PhysPageSize;
     programCounterQuantum := PCQuantum;
     int64AlignmentBytes := Int64Align |}.

Definition power64le : ArchitectureParameters :=
  of_enum arch_power64le.thechar arch_power64le.BigEndian
          arch_power64le.CacheLineSize arch_power64le.RuntimeGogoBytes
          arch_power64le.PhysPageSize arch_power64le.PCQuantum
          arch_power64le.Int64Align.

(** The records declared by the sources at hand: one header, one record. *)
Definition records : list ArchitectureParameters := [power64le].

(** ** Selection by tag *)

Inductive BuildError : Set := UnsupportedArchitecture.

(** Modelled from the spec: the selection step itself (the build picks the
    header of the target and includes it) is not part of the header.  The spec
    words it as a lookup: "the single ArchitectureParameters record matching
    that tag, or a build-time failure (UnsupportedArchitecture) if no record
    matches".  The registry is searched in order for a record whose
    [architectureTag] is the requested one. *)
Fixpoint select (registry : list ArchitectureParameters) (tag : ascii)
  : BuildError + ArchitectureParameters :=
  match registry with
  | [] => inl UnsupportedArchitecture
  | r :: rest =>
      if Ascii.eqb (architectureTag r) tag then inr r else select rest tag
  end.

(** Modelled from the spec: a tag "matches a known record" when the registry
    holds a record carrying it; selection fails "when the selection tag
    matches no known record". *)
Definition supported (registry : list ArchitectureParameters) (tag : ascii)
  : Prop :=
  In tag (map architectureTag registry).

(** ** Predicates on sizes *)

Definition power_of_two (n : Z) : Prop := exists k, 0 <= k /\ n = 2 ^ k.

Definition power_of_twob (n : Z) : bool := (0 <? n) && (2 ^ Z.log2 n =? n).

(** ** The byte counts among the enumerators

    Five enumerators count bytes; [thechar] is a character and [BigEndian] a
    flag. *)
Definition is_size (e : arch_power64le.enumerator) : bool :=
  match e with
  | arch_power64le.e_thechar | arch_power64le.e_BigEndian => false
  | _ => true
  end.

(** * Properties *)

Create HintDb arch.

#[local] Hint Unfold
  arch_power64le.thechar arch_power64le.BigEndian
  arch_power64le.CacheLineSize arch_power64le.RuntimeGogoBytes
  arch_power64le.PhysPageSize arch_power64le.PCQuantum
  arch_power64le.Int64Align : arch.

(** ** The enumerators are well-formed C [int] constants *)

Lemma enum_value_fits_int :
  forall e, fits_int (arch_power64le.enum_value e) = true.
Proof. intros e; destruct e; reflexivity. Qed.

Lemma enumerators_complete :
  forall e, In e arch_power64le.enumerators.
Proof. intros e; destruct e; simpl; tauto. Qed.

Lemma enum_value_nonneg :
  forall e, 0 <= arch_power64le.enum_value e.
Proof. intros e; destruct e; discriminate. Qed.

(** Reading a character constant back as a character loses nothing when the
    code is that of a single byte. *)
Lemma of_enum_tag_code :
  forall c b cl g pp pc ia,
    0 <= c < 256 ->
    Z.of_N (N_of_ascii (architectureTag (of_enum c b cl g pp pc ia))) = c.
Proof.
  intros c b cl g pp pc ia Hc; simpl.
  rewrite N_ascii_embedding by lia.
  apply Z2N.id; lia.
Qed.

(** ** Powers of two *)

Lemma power_of_two_pos : forall n, power_of_two n -> 0 < n.
Proof.
  intros n (k & Hk & ->).
  apply Z.pow_pos_nonneg; lia.
Qed.

Lemma power_of_twob_spec :
  forall n, power_of_twob n = true <-> power_of_two n.
Proof.
  intros n; unfold power_of_twob; split.
  - intros H. apply andb_true_iff in H as [_ H].
    apply Z.eqb_eq in H.
    exists (Z.log2 n); split; [apply Z.log2_nonneg | congruence].
  - intros (k & Hk & ->).
    apply andb_true_iff; split.
    + apply Z.ltb_lt, Z.pow_pos_nonneg; lia.
    + apply Z.eqb_eq. now rewrite Z.log2_pow2.
Qed.

Lemma power_of_two_divide :
  forall a b, power_of_two a -> power_of_two b -> a <= b -> (a | b).
Proof.
  intros a b (i & Hi & ->) (j & Hj & ->) Hle.
  assert (i <= j) by (apply (Z.pow_le_mono_r_iff 2); lia).
  exists (2 ^ (j - i)).
  rewrite <- Z.pow_add_r by lia.
  f_equal; lia.
Qed.

(** ** Selection over an arbitrary registry *)

Section Registry.

Variable registry : list ArchitectureParameters.

Lemma select_sound :
  forall tag r,
    select registry tag = inr r -> In r registry /\ architectureTag r = tag.
Proof.
  induction registry as [|r0 rest IH]; intros tag r; simpl.
  - discriminate.
  - destruct (Ascii.eqb (architectureTag r0) tag) eqn:E.
    + intros [= <-]. apply Ascii.eqb_eq in E. auto.
    + intros H. destruct (IH _ _ H). auto.
Qed.

Lemma select_unsupported :
  forall tag,
    ~ supported registry tag ->
    select registry tag = inl UnsupportedArchitecture.
Proof.
  unfold supported.
  induction registry as [|r0 rest IH]; intros tag Hn; simpl in *.
  - reflexivity.
  - destruct (Ascii.eqb (architectureTag r0) tag) eqn:E.
    + apply Ascii.eqb_eq in E. tauto.
    + apply IH. tauto.
Qed.

Lemma select_supported :
  forall tag,
    supported registry tag -> exists r, select registry tag = inr r.
Proof.
  unfold supported.
  induction registry as [|r0 rest IH]; intros tag Hin; simpl in *.
  - contradiction.
  - destruct (Ascii.eqb (architectureTag r0) tag) eqn:E.
    + eauto.
    + apply Ascii.eqb_neq in E.
      destruct Hin as [Hin | Hin]; [contradiction | auto].
Qed.

Lemma select_fails_iff :
  forall tag,
    select registry tag = inl UnsupportedArchitecture <->
    ~ supported registry tag.
Proof.
  intros tag; split.
  - intros H Hs. destruct (select_supported _ Hs) as [r Hr]. congruence.
  - apply select_unsupported.
Qed.

Lemma unique_tag_unique_record :
  NoDup (map architectureTag registry) ->
  forall r1 r2,
    In r1 registry -> In r2 registry ->
    architectureTag r1 = architectureTag r2 -> r1 = r2.
Proof.
  induction registry as [|r0 rest IH]; simpl; intros Hnd r1 r2 H1 H2 Ht.
  - contradiction.
  - inversion Hnd as [|? ? Hnotin Hnd']; subst.
    destruct H1 as [<- | H1], H2 as [<- | H2]; auto.
    + exfalso; apply Hnotin. rewrite Ht. now apply in_map.
    + exfalso; apply Hnotin. rewrite <- Ht. now apply in_map.
Qed.

Lemma select_own_tag :
  NoDup (map architectureTag registry) ->
  forall r, In r registry -> select registry (architectureTag r) = inr r.
Proof.
  intros Hnd r Hin.
  assert (Hs : supported registry (architectureTag r))
    by (now apply in_map).
  destruct (select_supported _ Hs) as [r' Hr'].
  destruct (select_sound _ _ Hr') as [Hin' Ht'].
  rewrite Hr'. f_equal.
  now apply unique_tag_unique_record.
Qed.

End Registry.

(** ** Concrete checks *)

Example select_power64le : select records "9"%char = inr power64le.
Proof. reflexivity. Qed.

Example select_other_tag :
  select records "6"%char = inl UnsupportedArchitecture.
Proof. reflexivity. Qed.

Example select_empty_registry :
  select [] "9"%char = inl UnsupportedArchitecture.
Proof. reflexivity. Qed.

Example page_size_power_of_twob :
  power_of_twob arch_power64le.PhysPageSize = true.
Proof. reflexivity. Qed.

Example cache_line_power_of_twob :
  power_of_twob arch_power64le.CacheLineSize = true.
Proof. reflexivity. Qed.

Example power_of_twob_rejects :
  power_of_twob 0 = false /\ power_of_twob 96 = false /\
  power_of_twob (-8) = false.
Proof. repeat split; reflexivity. Qed.

(** * The claims *)

(** C1.  Selecting the little-endian 64-bit POWER record and reading back its
    fields yields the declared values: [BigEndian = 0], so [isBigEndian] is
    false; [CacheLineSize = 64]; [PhysPageSize = 65536]; [PCQuantum = 4];
    [Int64Align = 8]; [RuntimeGogoBytes = 64]. *)
Theorem power64le_round_trip :
  select records "9"%char = inr power64le /\
  (arch_power64le.BigEndian = 0 /\ isBigEndian power64le = false) /\
  (arch_power64le.CacheLineSize = 64 /\ cacheLineSizeBytes power64le = 64) /\
  (arch_power64le.PhysPageSize = 65536 /\
   physicalPageSizeBytes power64le = 65536) /\
  (arch_power64le.PCQuantum = 4 /\ programCounterQuantum power64le = 4) /\
  (arch_power64le.Int64Align = 8 /\ int64AlignmentBytes power64le = 8) /\
  (arch_power64le.RuntimeGogoBytes = 64 /\
   stackSwitchBufferBytes power64le = 64).
Proof. repeat split; reflexivity. Qed.

(** C2.  In every record, and in the power64le one in particular, the page
    size and the cache line size are powers of two greater than zero
    ([PhysPageSize = 2^16], [CacheLineSize = 2^6]). *)
Theorem sizes_power_of_two :
  Forall (fun r =>
            (power_of_two (physicalPageSizeBytes r) /\
             0 < physicalPageSizeBytes r) /\
            (power_of_two (cacheLineSizeBytes r) /\
             0 < cacheLineSizeBytes r)) records /\
  arch_power64le.PhysPageSize = 2 ^ 16 /\
  arch_power64le.CacheLineSize = 2 ^ 6.
Proof.
  split; [|split; reflexivity].
  unfold records. constructor; [|constructor].
  assert (Hp : power_of_two (physicalPageSizeBytes power64le))
    by (exists 16; split; [lia | reflexivity]).
  assert (Hc : power_of_two (cacheLineSizeBytes power64le))
    by (exists 6; split; [lia | reflexivity]).
  auto using power_of_two_pos.
Qed.

(** C3.  In every record, and in the power64le one in particular, the 8-byte
    scalar alignment divides the page size: [PhysPageSize mod Int64Align = 0]
    (and likewise with C's truncating [%]). *)
Theorem int64_align_divides_page :
  Forall (fun r =>
            (int64AlignmentBytes r | physicalPageSizeBytes r) /\
            physicalPageSizeBytes r mod int64AlignmentBytes r = 0) records /\
  arch_power64le.PhysPageSize mod arch_power64le.Int64Align = 0 /\
  Z.rem arch_power64le.PhysPageSize arch_power64le.Int64Align = 0.
Proof.
  split; [|split; reflexivity].
  unfold records. constructor; [|constructor].
  split; [|reflexivity].
  exists 8192. reflexivity.
Qed.

(** C4.  Whatever the registry: a tag that matches no record makes the
    selection fail with [UnsupportedArchitecture]; a tag that matches one
    never fails; and a record that is returned is a record of the registry
    carrying the requested tag, never a default. *)
Theorem select_unsupported_architecture :
  forall (registry : list ArchitectureParameters) (tag : ascii),
    (~ supported registry tag ->
     select registry tag = inl UnsupportedArchitecture) /\
    (supported registry tag ->
     exists r, select registry tag = inr r /\
               In r registry /\ architectureTag r = tag) /\
    (forall r, select registry tag = inr r ->
               In r registry /\ architectureTag r = tag) /\
    (forall e, select registry tag = inl e ->
               e = UnsupportedArchitecture /\ ~ supported registry tag).
Proof.
  intros registry tag. repeat split.
  - apply select_unsupported.
  - intros Hs. destruct (select_supported _ _ Hs) as [r Hr].
    exists r. split; [exact Hr | now apply select_sound].
  - now apply (select_sound registry tag).
  - now apply (select_sound registry tag).
  - now destruct e.
  - destruct e. now apply select_fails_iff.
Qed.

(** C5.  The tag of a record is the code of a single character; the tag of
    the power64le record is the character '9' ([thechar = '9'], code 57). *)
Theorem power64le_tag_is_9 :
  architectureTag power64le = "9"%char /\
  arch_power64le.thechar = 57 /\
  Z.of_N (N_of_ascii (architectureTag power64le)) = arch_power64le.thechar /\
  Forall (fun r => 0 <= Z.of_N (N_of_ascii (architectureTag r)) < 256)
         records.
Proof.
  repeat split; try reflexivity.
  apply Forall_forall; intros r _.
  pose proof (N_ascii_bounded (architectureTag r)). lia.
Qed.

(** C9.  [Int64Align = 8] divides [CacheLineSize = 64]: moving an address by
    a whole number of cache lines leaves its residue modulo the 8-byte
    alignment unchanged, so a size that is a multiple of the cache line is
    8-byte aligned. *)
Theorem int64_align_divides_cache_line :
  (arch_power64le.Int64Align | arch_power64le.CacheLineSize) /\
  arch_power64le.CacheLineSize mod arch_power64le.Int64Align = 0 /\
  (forall a n,
     (a + n * arch_power64le.CacheLineSize) mod arch_power64le.Int64Align =
     a mod arch_power64le.Int64Align) /\
  (forall n,
     (n * arch_power64le.CacheLineSize) mod arch_power64le.Int64Align = 0).
Proof.
  autounfold with arch. repeat split.
  - exists 8. reflexivity.
  - intros a n. replace (a + n * 64) with (a + (n * 8) * 8) by lia.
    apply Z_mod_plus_full.
  - intros n. replace (n * 64) with ((n * 8) * 8) by lia.
    apply Z_mod_mult.
Qed.

(** C10.  [CacheLineSize = 64] divides [PhysPageSize = 65536]: moving an
    address by a whole number of pages leaves its offset within the cache
    line unchanged, so every page boundary is a cache line boundary. *)
Theorem cache_line_divides_page :
  (arch_power64le.CacheLineSize | arch_power64le.PhysPageSize) /\
  arch_power64le.PhysPageSize mod arch_power64le.CacheLineSize = 0 /\
  (forall a k,
     (a + k * arch_power64le.PhysPageSize) mod arch_power64le.CacheLineSize =
     a mod arch_power64le.CacheLineSize) /\
  (forall k,
     (k * arch_power64le.PhysPageSize) mod arch_power64le.CacheLineSize = 0).
Proof.
  autounfold with arch. repeat split.
  - exists 1024. reflexivity.
  - intros a k. replace (a + k * 65536) with (a + (k * 1024) * 64) by lia.
    apply Z_mod_plus_full.
  - intros k. replace (k * 65536) with ((k * 1024) * 64) by lia.
    apply Z_mod_mult.
Qed.

(** * Further properties of the enumerators *)

Lemma size_value_power_of_two :
  forall e, is_size e = true -> power_of_two (arch_power64le.enum_value e).
Proof.
  intros e He; destruct e; try discriminate He; simpl.
  - exists 6; split; [lia | reflexivity].
  - exists 6; split; [lia | reflexivity].
  - exists 16; split; [lia | reflexivity].
  - exists 2; split; [lia | reflexivity].
  - exists 3; split; [lia | reflexivity].
Qed.

Lemma size_value_divide :
  forall e1 e2,
    is_size e1 = true -> is_size e2 = true ->
    arch_power64le.enum_value e1 <= arch_power64le.enum_value e2 ->
    (arch_power64le.enum_value e1 | arch_power64le.enum_value e2).
Proof.
  intros e1 e2 H1 H2 Hle.
  apply power_of_two_divide; auto using size_value_power_of_two.
Qed.

Lemma mod_shift_multiple :
  forall d m a n, (d | m) -> (a + n * m) mod d = a mod d.
Proof.
  intros d m a n [q ->].
  replace (a + n * (q * d)) with (a + (n * q) * d) by lia.
  apply Z_mod_plus_full.
Qed.

(** X1.  Each of the seven enumerators is a value a C [int] holds, and none
    is negative; the five byte counts are strictly positive and the
    [BigEndian] flag is 0 or 1. *)
Theorem enumerators_are_c_ints :
  forall e,
    (INT_MIN <= arch_power64le.enum_value e <= INT_MAX) /\
    0 <= arch_power64le.enum_value e /\
    (if is_size e then 0 < arch_power64le.enum_value e else True) /\
    (arch_power64le.BigEndian = 0 \/ arch_power64le.BigEndian = 1).
Proof.
  intros e. repeat split; try (destruct e; simpl; easy).
  now left.
Qed.

(** X2.  Every byte count of the header, not only the page and the cache
    line, is a power of two greater than zero: also [RuntimeGogoBytes],
    [PCQuantum] and [Int64Align]. *)
Theorem size_enumerators_power_of_two :
  forall e,
    is_size e = true ->
    power_of_two (arch_power64le.enum_value e) /\
    power_of_twob (arch_power64le.enum_value e) = true /\
    0 < arch_power64le.enum_value e.
Proof.
  intros e He.
  pose proof (size_value_power_of_two e He) as Hp.
  split; [exact Hp|]. split.
  - now apply power_of_twob_spec.
  - now apply power_of_two_pos.
Qed.

Lemma size_enumerators_power_of_two_witness :
  is_size arch_power64le.e_PCQuantum = true /\
  power_of_two (arch_power64le.enum_value arch_power64le.e_PCQuantum).
Proof.
  split; [reflexivity|].
  apply (size_enumerators_power_of_two arch_power64le.e_PCQuantum).
  reflexivity.
Defined.

(** X3.  The byte counts are totally ordered by divisibility: of any two,
    the smaller divides the larger, so moving an address by a whole number
    of the larger unit keeps its residue modulo the smaller one. *)
Theorem sizes_ordered_by_divisibility :
  forall e1 e2,
    is_size e1 = true -> is_size e2 = true ->
    arch_power64le.enum_value e1 <= arch_power64le.enum_value e2 ->
    (arch_power64le.enum_value e1 | arch_power64le.enum_value e2) /\
    arch_power64le.enum_value e2 mod arch_power64le.enum_value e1 = 0 /\
    (forall a n,
       (a + n * arch_power64le.enum_value e2)
         mod arch_power64le.enum_value e1 =
       a mod arch_power64le.enum_value e1).
Proof.
  intros e1 e2 H1 H2 Hle.
  pose proof (size_value_divide e1 e2 H1 H2 Hle) as Hd.
  split; [exact Hd|]. split.
  - destruct Hd as [q ->]. apply Z_mod_mult.
  - intros a n. now apply mod_shift_multiple.
Qed.

Lemma sizes_ordered_by_divisibility_witness :
  (arch_power64le.PCQuantum | arch_power64le.PhysPageSize) /\
  (forall a n,
     (a + n * arch_power64le.PhysPageSize) mod arch_power64le.PCQuantum =
     a mod arch_power64le.PCQuantum).
Proof.
  pose proof (sizes_ordered_by_divisibility
                arch_power64le.e_PCQuantum arch_power64le.e_PhysPageSize
                eq_refl eq_refl ltac:(simpl; discriminate)) as (Hd & _ & Hs).
  split; [exact Hd | exact Hs].
Defined.

(** X4.  The smaller of two byte counts tiles the larger exactly: the larger
    holds a whole number of units of the smaller, and each of these units,
    taken by index, lies within the larger with nothing left over. *)
Theorem smaller_size_tiles_larger :
  forall e1 e2,
    is_size e1 = true -> is_size e2 = true ->
    arch_power64le.enum_value e1 <= arch_power64le.enum_value e2 ->
    let u := arch_power64le.enum_value e1 in
    let w := arch_power64le.enum_value e2 in
    1 <= w / u /\
    (w / u) * u = w /\
    (forall i, 0 <= i < w / u -> 0 <= i * u /\ i * u + u <= w) /\
    (forall i j, 0 <= i < j -> i * u + u <= j * u).
Proof.
  intros e1 e2 H1 H2 Hle u w.
  assert (Hu : 0 < u) by (apply power_of_two_pos, size_value_power_of_two, H1).
  destruct (size_value_divide e1 e2 H1 H2 Hle) as [q Hq].
  fold u w in Hq, Hle.
  assert (Hdiv : w / u = q) by (rewrite Hq; apply Z.div_mul; lia).
  rewrite Hdiv.
  repeat split; try nia.
Qed.

Lemma smaller_size_tiles_larger_witness :
  arch_power64le.PhysPageSize / arch_power64le.CacheLineSize
    * arch_power64le.CacheLineSize = arch_power64le.PhysPageSize /\
  (forall i,
     0 <= i < arch_power64le.PhysPageSize / arch_power64le.CacheLineSize ->
     0 <= i * arch_power64le.CacheLineSize /\
     i * arch_power64le.CacheLineSize + arch_power64le.CacheLineSize
       <= arch_power64le.PhysPageSize).
Proof.
  pose proof (smaller_size_tiles_larger
                arch_power64le.e_CacheLineSize arch_power64le.e_PhysPageSize
                eq_refl eq_refl ltac:(simpl; discriminate))
    as (_ & Hq & Hi & _).
  split; [exact Hq | exact Hi].
Defined.
